(** * Splitting a courseware_studentmodule dump per course

    A shallow embedding of [edx/analytics/tasks/database_exports.py]
    (class [StudentModulePerCourseTask]) together with the properties its
    specification states about the mapper, the per-key output router, the
    partition writer and the completion marker. *)

From Stdlib Require Import ZArith Ascii Lia.
From stdpp Require Import base strings list gmap.

(** ** Python values and effects *)

(** The two control characters the task writes. *)
Definition TAB : ascii := "009"%char.
Definition LF : ascii := "010"%char.

Definition str (c : ascii) : string := String c EmptyString.

(** Exceptions that the modelled code can raise. *)
Inductive exn : Type :=
| TypeError (msg : string)
| KeyError (name : string)
| ValueError (msg : string)
| IndexError (msg : string)
| IOError
| OverflowError
| csv_Error (msg : string)
| SanitizationCollision (location first_key second_key : string).

(** A computation either returns a value or raises. *)
Inductive result (A : Type) : Type :=
| Return (a : A)
| Raise (e : exn).

Arguments Return {A} a.
Arguments Raise {A} e.

Definition bind {A B : Type} (r : result A) (k : A -> result B) : result B :=
  match r with
  | Return a => k a
  | Raise e => Raise e
  end.

Notation "x <- r ;; k" := (bind r (fun x => k))
  (at level 100, r at next level, right associativity).

(** [for x in xs: body], threading the mutated object through the loop. *)
Fixpoint for_each {A S : Type} (body : A -> S -> result S) (xs : list A) (s : S)
  : result S :=
  match xs with
  | [] => Return s
  | x :: xs' => s' <- body x s ;; for_each body xs' s'
  end.

(** What a consumer observes when it exhausts a generator: the items it
    yielded, and the exception (if any) that ended it. *)
Record generated (A : Type) : Type := Generated {
  yielded : list A;
  raised : option exn
}.

Arguments Generated {A} _ _.
Arguments yielded {A} _.
Arguments raised {A} _.

(** A generator whose body computes one item and yields it last. *)
Definition yield_one {A : Type} (body : result A) : generated A :=
  match body with
  | Return a => Generated [a] None
  | Raise e => Generated [] (Some e)
  end.

(** Truth value of [x] in [if x] for a parameter that is [None] or a string. *)
Definition truthy (x : option string) : bool :=
  match x with
  | None => false
  | Some EmptyString => false
  | Some (String _ _) => true
  end.

(** *** [str.format] with keyword arguments

    Replacement fields are plain names, [{{] and [}}] are the escaped
    braces.  Conversions, format specifications, attribute and index
    access inside a field are not part of this model: Python gives them a
    meaning of their own, here they are reported as a [ValueError]. *)

Fixpoint kwargs_lookup (name : string) (kwargs : list (string * string))
  : result string :=
  match kwargs with
  | [] => Raise (KeyError name)
  | (k, v) :: kwargs' =>
      if String.eqb k name then Return v else kwargs_lookup name kwargs'
  end.

Inductive format_state : Type :=
| InLiteral
| AfterOpen
| InField (name : string)
| AfterClose.

Definition field_special (c : ascii) : bool :=
  (Ascii.eqb c "!" || Ascii.eqb c ":" || Ascii.eqb c "." || Ascii.eqb c "[")%char.

Fixpoint format_from (st : format_state) (kwargs : list (string * string))
  (template : string) : result string :=
  match template with
  | EmptyString =>
      match st with
      | InLiteral => Return EmptyString
      | AfterOpen => Raise (ValueError "Single '{' encountered in format string")
      | InField _ => Raise (ValueError "expected '}' before end of string")
      | AfterClose => Raise (ValueError "Single '}' encountered in format string")
      end
  | String c rest =>
      match st with
      | InLiteral =>
          if Ascii.eqb c "{" then format_from AfterOpen kwargs rest
          else if Ascii.eqb c "}" then format_from AfterClose kwargs rest
          else r <- format_from InLiteral kwargs rest ;; Return (String c r)
      | AfterOpen =>
          if Ascii.eqb c "{" then
            r <- format_from InLiteral kwargs rest ;; Return (String c r)
          else if Ascii.eqb c "}" then
            Raise (IndexError "tuple index out of range")
          else if field_special c then
            Raise (ValueError "field syntax outside the model")
          else format_from (InField (str c)) kwargs rest
      | InField name =>
          if Ascii.eqb c "}" then
            v <- kwargs_lookup name kwargs ;;
            r <- format_from InLiteral kwargs rest ;; Return (v +:+ r)
          else if Ascii.eqb c "{" then
            Raise (ValueError "unexpected '{' in field name")
          else if field_special c then
            Raise (ValueError "field syntax outside the model")
          else format_from (InField (name +:+ str c)) kwargs rest
      | AfterClose =>
          if Ascii.eqb c "}" then
            r <- format_from InLiteral kwargs rest ;; Return (String c r)
          else Raise (ValueError "Single '}' encountered in format string")
      end
  end.

Definition str_format (template : string) (kwargs : list (string * string))
  : result string :=
  format_from InLiteral kwargs template.

(** *** File objects

    An open output file: what has been written so far, and how many more
    [write] calls the device accepts before it fails ([None]: it never
    fails). *)
Record file_object : Type := OutputFile {
  written : string;
  faults : option nat
}.

Definition open_reliable : file_object := OutputFile EmptyString None.

(** [output_file.write(s)]: appends, or raises [IOError]. *)
Definition write (s : string) (f : file_object) : result file_object :=
  match faults f with
  | None => Return (OutputFile (written f +:+ s) None)
  | Some O => Raise IOError
  | Some (S n) => Return (OutputFile (written f +:+ s) (Some n))
  end.

(** *** The [csv] module's process-wide state

    Python's [csv] module keeps one field-size limit per process, in a C
    [long] (64 bits here).  [csv.field_size_limit(new)] replaces it and
    returns the old one; with a limit that does not fit a [long] the call
    raises and the limit stays as it was. *)
Record process : Type := Process {
  csv_field_limit : Z
}.

Module csv.

Definition default_field_limit : Z := (128 * 1024)%Z.

Definition fresh_process : process := Process default_field_limit.

Definition LONG_MAX : Z := (2 ^ 63 - 1)%Z.

Definition fits_long (n : Z) : bool :=
  ((- LONG_MAX - 1 <=? n) && (n <=? LONG_MAX))%Z.

Definition field_size_limit (new_limit : Z) (p : process)
  : result Z * process :=
  if fits_long new_limit
  then (Return (csv_field_limit p), Process new_limit)
  else (Raise OverflowError, p).

End csv.

(** The two dialects the task names. *)
Inductive dialect : Type := mysqldump | mysqlpipe.

(** ** The task, over its collaborators

    [url_path_join] and [get_target_from_url] (module [url]),
    [get_filename_safe_course_id] (module [opaque_key_util]), [parse_line]
    and [to_csv_line] (module [csv_util]) are imported by the task; the
    definitions below take them as parameters.  [parse_line] reads the
    process-wide field-size limit of the [csv] module, which is passed to
    it as its first argument. *)

Section Task.

Variable Target : Type.
Variable get_target_from_url : string -> Target.
Variable url_path_join : string -> string -> string.
Variable get_filename_safe_course_id : string -> ascii -> string.
Variable parse_line : Z -> string -> dialect -> result (list string).
Variable to_csv_line : list string -> dialect -> string.

Definition FIELD_SIZE_LIMIT : Z := (4 * 1024 * 1024)%Z.

(** The module's top-level statement [csv.field_size_limit(FIELD_SIZE_LIMIT)],
    executed when the module is imported. *)
Definition import_module (p : process) : process :=
  snd (csv.field_size_limit FIELD_SIZE_LIMIT p).


Definition STUDENT_MODULE_FIELDS : list string :=
  [ "id"; "module_type"; "module_id"; "student_id"; "state"; "grade";
    "created"; "modified"; "max_grade"; "done"; "course_id" ].

(** [namedtuple('StudentModuleRecord', STUDENT_MODULE_FIELDS)] *)
Record StudentModuleRecord : Type := mkStudentModuleRecord {
  id : string;
  module_type : string;
  module_id : string;
  student_id : string;
  state : string;
  grade : string;
  created : string;
  modified : string;
  max_grade : string;
  done : string;
  course_id : string
}.

(** Calling [StudentModuleRecord] on the unpacked [values]: the call takes
    exactly eleven positional arguments. *)
Definition StudentModuleRecord_new (values : list string)
  : result StudentModuleRecord :=
  match values with
  | [v0; v1; v2; v3; v4; v5; v6; v7; v8; v9; v10] =>
      Return (mkStudentModuleRecord v0 v1 v2 v3 v4 v5 v6 v7 v8 v9 v10)
  | _ => Raise (TypeError "__new__() takes exactly 12 arguments")
  end.

(** A named tuple read as the sequence of its items. *)
Definition astuple (record : StudentModuleRecord) : list string :=
  [ id record; module_type record; module_id record; student_id record;
    state record; grade record; created record; modified record;
    max_grade record; done record; course_id record ].

Definition MARKER_FILENAME : string := "job_success".

Record StudentModulePerCourseTask : Type := mkTask {
  dump_root : string;
  output_root : string;
  output_suffix : option string
}.

Definition output (self : StudentModulePerCourseTask) : Target :=
  get_target_from_url (url_path_join (output_root self) MARKER_FILENAME).

Definition mapper (p : process) (line : string) : generated (string * string) :=
  yield_one (
    values <- parse_line (csv_field_limit p) line mysqldump ;;
    record <- StudentModuleRecord_new values ;;
    let course_id := course_id record in
    let tab_separated_row := to_csv_line (astuple record) mysqlpipe in
    Return (course_id, tab_separated_row)).

Definition multi_output_reducer (_key : string) (rows : list string)
  (output_file : file_object) : result file_object :=
  let header := String.concat (str TAB) STUDENT_MODULE_FIELDS in
  output_file <- write header output_file ;;
  output_file <- write (str LF) output_file ;;
  for_each
    (fun row output_file =>
       output_file <- write row output_file ;;
       write (str LF) output_file)
    rows output_file.

Definition output_path_for_key (self : StudentModulePerCourseTask)
  (course_id : string) : result string :=
  let template := "{course_id}-courseware_studentmodule-{suffix}analytics.sql" in
  filename <- str_format template
    [ ("course_id", get_filename_safe_course_id course_id "-"%char);
      ("suffix",
       if truthy (output_suffix self)
       then default EmptyString (output_suffix self) +:+ "-"
       else EmptyString) ] ;;
  Return (url_path_join (output_root self) filename).

End Task.

(** ** The summary task

    [StudentModuleSummary]: its mapper keys every parsed line by course and
    student, its reducer counts the rows of a key and adds up their
    [state] items. *)

(** The values a row can hold when it reaches a reducer, as far as they
    are modelled: the strings the parser produced, or integers.  Other
    Python values (floats, [None], ...) are outside this model. *)
Inductive pyvalue : Type :=
| Str (s : string)
| Int (n : Z).

(** The [state] item of [StudentModuleRecord] called on the unpacked
    [row]; the call takes exactly eleven positional arguments. *)
Definition record_state (row : list pyvalue) : result pyvalue :=
  match row with
  | [_; _; _; _; state; _; _; _; _; _; _] => Return state
  | _ => Raise (TypeError "__new__() takes exactly 12 arguments")
  end.

(** [total += x] for an integer [total]. *)
Definition int_iadd (total : Z) (x : pyvalue) : result Z :=
  match x with
  | Int n => Return (total + n)%Z
  | Str _ =>
      Raise (TypeError "unsupported operand type(s) for +=: 'int' and 'str'")
  end.

Module StudentModuleSummary.

Section Summary.

Variable parse_line : Z -> string -> dialect -> result (list string).

Definition mapper (p : process) (line : string)
  : generated ((string * string) * list string) :=
  yield_one (
    values <- parse_line (csv_field_limit p) line mysqldump ;;
    record <- StudentModuleRecord_new values ;;
    Return ((course_id record, student_id record), values)).

Definition reducer (key : string * string) (values : list (list pyvalue))
  : generated (string * string * Z * Z) :=
  let '(course_id, student_id) := key in
  yield_one (
    totals <-
      for_each
        (fun row '(count, total_length) =>
           state <- record_state row ;;
           let count := (count + 1)%Z in
           total_length <- int_iadd total_length state ;;
           Return (count, total_length))
        values (0%Z, 0%Z) ;;
    Return (course_id, student_id, fst totals, snd totals)).

End Summary.

End StudentModuleSummary.

(** ** Collaborators that are not part of the sources *)

Module url.

(** Modelled from the spec: [url_path_join] of [edx.analytics.tasks.url] is
    missing from the sources.  The spec lays the output directory out as
    [{output_root}/{name}], for the partitions and for [job_success]. *)
Definition url_path_join (url extra_path : string) : string :=
  url +:+ "/" +:+ extra_path.

End url.

Module opaque_key_util.

Definition in_range (lo hi : N) (c : ascii) : bool :=
  (N.leb lo (N_of_ascii c) && N.leb (N_of_ascii c) hi)%bool.

Definition is_letter (c : ascii) : bool :=
  (in_range 65 90 c || in_range 97 122 c)%bool.

Definition is_digit (c : ascii) : bool := in_range 48 57 c.

(** The safe set of the spec: letters, digits, limited punctuation; the
    punctuation is taken to be underscore, period and hyphen. *)
Definition filename_safe (c : ascii) : bool :=
  (is_letter c || is_digit c
   || Ascii.eqb c "_" || Ascii.eqb c "." || Ascii.eqb c "-")%bool%char.

Fixpoint replace_unsafe (safe : ascii -> bool) (replacement_char : ascii)
  (s : string) : string :=
  match s with
  | EmptyString => EmptyString
  | String c s' =>
      String (if safe c then c else replacement_char)
             (replace_unsafe safe replacement_char s')
  end.

(** Modelled from the spec: [get_filename_safe_course_id] of
    [edx.analytics.tasks.util.opaque_key_util] is missing from the sources.
    The spec's [sanitize] replaces every character not in a safe set with a
    fixed substitute; a colon is one of the replaced characters. *)
Definition get_filename_safe_course_id (course_id : string)
  (replacement_char : ascii) : string :=
  replace_unsafe filename_safe replacement_char course_id.

End opaque_key_util.

Module csv_util.

Definition delimiter (d : dialect) : ascii :=
  match d with
  | mysqldump => ","%char
  | mysqlpipe => TAB
  end.

(** The fields of a line: the pieces between delimiters. *)
Fixpoint split_on (delim : ascii) (line : string) : list string :=
  match line with
  | EmptyString => [EmptyString]
  | String c rest =>
      if Ascii.eqb c delim then EmptyString :: split_on delim rest
      else match split_on delim rest with
           | field :: fields => String c field :: fields
           | [] => [str c]
           end
  end.

Definition field_too_large (limit : Z) (field : string) : bool :=
  (limit <? Z.of_nat (String.length field))%Z.

(** Modelled from the spec: [parse_line] of
    [edx.analytics.tasks.util.csv_util] is missing from the sources.  The
    spec's [parse] splits a raw line at the dialect's delimiter (a comma
    for the dump, in its example) and fails when a field exceeds the
    field-size bound; the quoting and escaping rules of the dump dialect,
    which the spec does not spell out, are not modelled. *)
Definition parse_line (limit : Z) (line : string) (d : dialect)
  : result (list string) :=
  let fields := split_on (delimiter d) line in
  if existsb (field_too_large limit) fields
  then Raise (csv_Error "field larger than field limit")
  else Return fields.

(** Modelled from the spec: [to_csv_line] of
    [edx.analytics.tasks.util.csv_util] is missing from the sources.  The
    spec's [serialize] renders a record as one tab-separated line and does
    not escape its own delimiter inside field values. *)
Definition to_csv_line (row : list string) (d : dialect) : string :=
  String.concat (str (delimiter d)) row.

End csv_util.

(** ** The job around the task

    Modelled from the spec: the driver of [MultiOutputMapReduceJobTask]
    ([edx.analytics.tasks.mapreduce]) is missing from the sources.  By the
    spec the partition writer is invoked once per key with that key's rows:
    it opens the key's output location, lets [multi_output_reducer] write,
    and finalizes the output on close; it refuses to overwrite a partition
    finalized by a different key in the same run; any failure is fatal to
    the run; [mark_success] writes the marker at [{root}/job_success] only
    after every partition write has succeeded; when the job fails before
    that, the marker must not exist, so a failed run leaves none. *)

Section Job.

Variable url_path_join : string -> string -> string.
Variable get_filename_safe_course_id : string -> ascii -> string.

(** The storage under the output root (location to content), and the
    partitions finalized so far in this run (location to raw key). *)
Record run_state : Type := RunState {
  storage : gmap string string;
  finalized : gmap string string
}.

Definition start_run (fs : gmap string string) : run_state := RunState fs ∅.

Definition check_collision (st : run_state) (output_path key : string)
  : result unit :=
  match finalized st !! output_path with
  | Some first_key =>
      if String.eqb first_key key then Return tt
      else Raise (SanitizationCollision output_path first_key key)
  | None => Return tt
  end.

Definition reducer (self : StudentModulePerCourseTask)
  (device : string -> option nat) (group : string * list string)
  (st : run_state) : result run_state :=
  let '(key, values) := group in
  output_path <-
    output_path_for_key url_path_join get_filename_safe_course_id self key ;;
  _ <- check_collision st output_path key ;;
  output_file <-
    multi_output_reducer key values (OutputFile EmptyString (device output_path)) ;;
  Return (RunState (<[output_path := written output_file]> (storage st))
                   (<[output_path := key]> (finalized st))).

(** The reduce phase over the key groups, in the order they arrive; it
    stops at the first failure and keeps what was finalized before it. *)
Fixpoint write_partitions (self : StudentModulePerCourseTask)
  (device : string -> option nat) (groups : list (string * list string))
  (st : run_state) : run_state * option exn :=
  match groups with
  | [] => (st, None)
  | group :: groups' =>
      match reducer self device group st with
      | Return st' => write_partitions self device groups' st'
      | Raise e => (st, Some e)
      end
  end.

Definition marker_location (self : StudentModulePerCourseTask) : string :=
  url_path_join (output_root self) MARKER_FILENAME.

Definition mark_success (self : StudentModulePerCourseTask)
  (fs : gmap string string) : gmap string string :=
  <[marker_location self := EmptyString]> fs.

Definition run_job (self : StudentModulePerCourseTask)
  (device : string -> option nat) (groups : list (string * list string))
  (fs : gmap string string) : gmap string string * option exn :=
  match write_partitions self device groups (start_run fs) with
  | (st, None) => (mark_success self (storage st), None)
  | (st, Some e) => (delete (marker_location self) (storage st), Some e)
  end.

End Job.

(** ** Vocabulary of the properties *)

(** Whether character [c] occurs in [s]. *)
Fixpoint occurs (c : ascii) (s : string) : bool :=
  match s with
  | EmptyString => false
  | String c' s' => (Ascii.eqb c' c || occurs c s')%bool
  end.

(** A row that is one line: it holds no line feed. *)
Definition single_line (row : string) : Prop := occurs LF row = false.

(** The text made of the given lines, each followed by a line feed. *)
Fixpoint lines_text (ls : list string) : string :=
  match ls with
  | [] => EmptyString
  | l :: ls' => l +:+ str LF +:+ lines_text ls'
  end.

(** The lines a reader finds in a text: the pieces ended by a line feed,
    and a last piece when the text does not end with one. *)
Fixpoint content_lines (s : string) : list string :=
  match s with
  | EmptyString => []
  | String c s' =>
      if Ascii.eqb c LF then EmptyString :: content_lines s'
      else match content_lines s' with
           | l :: ls => String c l :: ls
           | [] => [str c]
           end
  end.

(** The header of a partition, spelled out. *)
Definition header_line : string :=
  "id" +:+ str TAB +:+ "module_type" +:+ str TAB +:+ "module_id" +:+ str TAB
  +:+ "student_id" +:+ str TAB +:+ "state" +:+ str TAB +:+ "grade" +:+ str TAB
  +:+ "created" +:+ str TAB +:+ "modified" +:+ str TAB +:+ "max_grade"
  +:+ str TAB +:+ "done" +:+ str TAB +:+ "course_id".

(** The suffix segment of a partition's name as the code computes it, and
    as a reading of the specification that takes every given suffix,
    the empty one included, to be followed by a hyphen. *)
Definition suffix_segment (output_suffix : option string) : string :=
  match output_suffix with
  | Some (String c s) => String c s +:+ "-"
  | _ => EmptyString
  end.

Definition suffix_segment_when_set (output_suffix : option string) : string :=
  match output_suffix with
  | Some s => s +:+ "-"
  | None => EmptyString
  end.

(** A line that does not parse into the eleven-field schema: the parser
    raises, or returns a number of fields other than eleven. *)
Definition malformed (parsed : result (list string)) : Prop :=
  match parsed with
  | Return values => length values ≠ 11%nat
  | Raise _ => True
  end.

(** The exception a malformed line ends the mapper with: the parser's
    own, or the [TypeError] of the record's arity. *)
Definition mapper_failure (parsed : result (list string)) : exn :=
  match parsed with
  | Raise e => e
  | Return _ => TypeError "__new__() takes exactly 12 arguments"
  end.

(** What the mapper would do if it skipped a line: yield nothing, raise
    nothing. *)
Definition skipped {A : Type} (g : generated A) : Prop :=
  yielded g = [] ∧ raised g = None.


(** The first [n] characters of [s], and [s] without them. *)
Fixpoint take_chars (n : nat) (s : string) : string :=
  match n, s with
  | S n', String c s' => String c (take_chars n' s')
  | _, _ => EmptyString
  end.

Fixpoint drop_chars (n : nat) (s : string) : string :=
  match n, s with
  | S n', String _ s' => drop_chars n' s'
  | _, _ => s
  end.

(** The fields found in [row] at known lengths: a field, one delimiter
    character, the next field, and so on. *)
Fixpoint fields_at (lengths : list nat) (row : string) : list string :=
  match lengths with
  | [] => []
  | n :: lengths' =>
      take_chars n row :: fields_at lengths' (drop_chars (S n) row)
  end.

(** The string made of [n] copies of [c]. *)
Fixpoint repeat_char (n : nat) (c : ascii) : string :=
  match n with
  | O => EmptyString
  | S n' => String c (repeat_char n' c)
  end.

(** A line with three fields, and a line of eleven fields whose fifth
    field holds a tab. *)
Definition short_line : string := "1,mod,m1".

Definition tabbed_line : string :=
  "1,mod,m1,s1,{a" +:+ str TAB +:+ "b},0,,,0,0,courseA".

(** The name of a key's partition under the output root. *)
Definition partition_name (get_filename_safe_course_id : string -> ascii -> string)
  (self : StudentModulePerCourseTask) (key : string) : string :=
  get_filename_safe_course_id key "-"%char +:+ "-courseware_studentmodule-"
  +:+ suffix_segment (output_suffix self) +:+ "analytics.sql".

(** The partition write of a key group succeeds on the device: the
    writer, run on the freshly opened output of the key, returns. *)
Definition partition_write_succeeds
  (url_path_join : string -> string -> string)
  (get_filename_safe_course_id : string -> ascii -> string)
  (self : StudentModulePerCourseTask) (device : string -> option nat)
  (group : string * list string) : Prop :=
  exists output_path output_file,
    output_path_for_key url_path_join get_filename_safe_course_id self
      (fst group) = Return output_path /\
    multi_output_reducer (fst group) (snd group)
      (OutputFile EmptyString (device output_path)) = Return output_file.

(** No two distinct keys of the groups share an output location. *)
Definition collision_free
  (url_path_join : string -> string -> string)
  (get_filename_safe_course_id : string -> ascii -> string)
  (self : StudentModulePerCourseTask) (groups : list (string * list string))
  : Prop :=
  forall g1 g2, g1 ∈ groups -> g2 ∈ groups ->
    output_path_for_key url_path_join get_filename_safe_course_id self (fst g1)
    = output_path_for_key url_path_join get_filename_safe_course_id self (fst g2) ->
    fst g1 = fst g2.

(** The number of occurrences of character [c] in [s]. *)
Fixpoint count_char (c : ascii) (s : string) : nat :=
  match s with
  | EmptyString => O
  | String c' s' => ((if Ascii.eqb c' c then 1 else 0) + count_char c s')%nat
  end.

(** The integer [state] items of rows, for rows that have eleven items
    with an integer fifth one. *)
Definition int_state (row : list pyvalue) (n : Z) : Prop :=
  record_state row = Return (Int n).

(** * Properties *)

(** ** Strings *)

Lemma string_app_cons (x : ascii) (a b : string) :
  String x a +:+ b = String x (a +:+ b).
Proof. reflexivity. Qed.

Lemma string_app_nil_l (a : string) : EmptyString +:+ a = a.
Proof. reflexivity. Qed.

Lemma string_app_assoc (a b c : string) : (a +:+ b) +:+ c = a +:+ b +:+ c.
Proof.
  induction a as [|x a IH]; [reflexivity|].
  rewrite !string_app_cons. f_equal. exact IH.
Qed.

Lemma string_app_nil_r (a : string) : a +:+ EmptyString = a.
Proof.
  induction a as [|x a IH]; [reflexivity|].
  rewrite string_app_cons. f_equal. exact IH.
Qed.

Lemma string_length_app (a b : string) :
  String.length (a +:+ b) = (String.length a + String.length b)%nat.
Proof.
  induction a as [|x a IH]; [reflexivity|].
  rewrite string_app_cons. cbn [String.length]. rewrite IH. reflexivity.
Qed.

Lemma occurs_app (c : ascii) (a b : string) :
  occurs c (a +:+ b) = (occurs c a || occurs c b)%bool.
Proof.
  induction a as [|x a IH]; [reflexivity|].
  rewrite string_app_cons. cbn [occurs]. rewrite IH. now rewrite orb_assoc.
Qed.

(** ** The partition writer *)

Lemma write_reliable (s before : string) :
  write s (OutputFile before None) = Return (OutputFile (before +:+ s) None).
Proof. reflexivity. Qed.

Lemma write_rows_reliable (rows : list string) (before : string) :
  for_each (fun row f => f' <- write row f ;; write (str LF) f')
           rows (OutputFile before None)
  = Return (OutputFile (before +:+ lines_text rows) None).
Proof.
  revert before. induction rows as [|row rows IH]; intros before; simpl.
  - now rewrite string_app_nil_r.
  - rewrite IH. do 2 f_equal. now rewrite !string_app_assoc.
Qed.

Lemma header_is_joined_fields :
  String.concat (str TAB) STUDENT_MODULE_FIELDS = header_line.
Proof. reflexivity. Qed.

Lemma multi_output_reducer_reliable (key : string) (rows : list string)
  (before : string) :
  multi_output_reducer key rows (OutputFile before None)
  = Return (OutputFile (before +:+ lines_text (header_line :: rows)) None).
Proof.
  unfold multi_output_reducer. rewrite header_is_joined_fields.
  rewrite write_reliable. cbn [bind]. rewrite write_reliable. cbn [bind].
  rewrite write_rows_reliable. do 2 f_equal.
  cbn [lines_text]. now rewrite !string_app_assoc.
Qed.

Lemma content_lines_line (l rest : string) :
  single_line l ->
  content_lines (l +:+ str LF +:+ rest) = l :: content_lines rest.
Proof.
  unfold single_line. induction l as [|c l IH]; intros Hl.
  - reflexivity.
  - cbn [occurs] in Hl. apply orb_false_iff in Hl as [Hc Hl].
    rewrite string_app_cons. cbn [content_lines]. rewrite Hc, (IH Hl).
    reflexivity.
Qed.

Lemma content_lines_text (ls : list string) :
  Forall single_line ls -> content_lines (lines_text ls) = ls.
Proof.
  induction 1 as [|l ls Hl _ IH]; [reflexivity|].
  cbn [lines_text]. now rewrite content_lines_line, IH.
Qed.

Lemma header_single_line : single_line header_line.
Proof. reflexivity. Qed.

(** C2: for every key and every finite sequence of rows,
    [multi_output_reducer] appends to the output exactly one header line
    (the eleven schema field names joined by tabs) followed by a line
    feed, then each row followed by a line feed, and nothing else: the
    written text is the header and the [N] rows, [1 + N] pieces each ended
    by a line feed.  When the rows are single lines, as serialized rows
    are, a reader of the text finds exactly those [1 + N] lines. *)
Theorem multi_output_reducer_writes_header_then_rows
  (key : string) (rows : list string) (before : string) :
  let header := String.concat (str TAB) STUDENT_MODULE_FIELDS in
  length STUDENT_MODULE_FIELDS = 11%nat ∧
  multi_output_reducer key rows (OutputFile before None)
  = Return (OutputFile (before +:+ header +:+ str LF +:+ lines_text rows) None) ∧
  header +:+ str LF +:+ lines_text rows = lines_text (header :: rows) ∧
  length (header :: rows) = S (length rows) ∧
  (Forall single_line rows ->
   content_lines (header +:+ str LF +:+ lines_text rows) = header :: rows ∧
   length (content_lines (header +:+ str LF +:+ lines_text rows))
   = S (length rows)).
Proof.
  intros header. subst header. rewrite header_is_joined_fields.
  split; [reflexivity|]. split; [apply multi_output_reducer_reliable|].
  split; [reflexivity|]. split; [reflexivity|].
  intros Hrows.
  assert (Hlines : content_lines (lines_text (header_line :: rows))
                   = header_line :: rows).
  { apply content_lines_text. constructor; [exact header_single_line | exact Hrows]. }
  cbn [lines_text] in Hlines. rewrite Hlines. split; reflexivity.
Qed.

Lemma multi_output_reducer_writes_header_then_rows_witness :
  content_lines
    (String.concat (str TAB) STUDENT_MODULE_FIELDS +:+ str LF
     +:+ lines_text ["1" +:+ str TAB +:+ "problem"; "2" +:+ str TAB +:+ "video"])
  = [ String.concat (str TAB) STUDENT_MODULE_FIELDS;
      "1" +:+ str TAB +:+ "problem"; "2" +:+ str TAB +:+ "video" ].
Proof.
  refine (proj1 (proj2 (proj2 (proj2 (proj2
    (multi_output_reducer_writes_header_then_rows "courseA"
       ["1" +:+ str TAB +:+ "problem"; "2" +:+ str TAB +:+ "video"]
       EmptyString)))) _)).
  repeat constructor.
Defined.

(** C10: called with an empty row sequence, [multi_output_reducer] still
    writes the header line followed by a line feed and nothing else: the
    output is a header-only file, neither empty nor an error. *)
Theorem multi_output_reducer_no_rows (key : string) :
  multi_output_reducer key [] open_reliable
  = Return (OutputFile (header_line +:+ str LF) None) ∧
  content_lines (header_line +:+ str LF) = [header_line] ∧
  header_line +:+ str LF ≠ EmptyString.
Proof.
  split; [reflexivity|]. split; [reflexivity|]. discriminate.
Qed.

(** ** The output router *)

Lemma replace_unsafe_idempotent (safe : ascii -> bool) (r : ascii) (s : string) :
  opaque_key_util.replace_unsafe safe r (opaque_key_util.replace_unsafe safe r s)
  = opaque_key_util.replace_unsafe safe r s.
Proof.
  induction s as [|c s IH]; [reflexivity|].
  cbn [opaque_key_util.replace_unsafe]. rewrite IH. f_equal.
  destruct (safe c) eqn:Hc.
  - now rewrite Hc.
  - now destruct (safe r).
Qed.

(** C6: the sanitization used to build output file names is idempotent,
    sanitizing a sanitized key changes nothing; this holds for every
    substitute character, the hyphen of [output_path_for_key] included. *)
Theorem get_filename_safe_course_id_idempotent
  (key : string) (replacement_char : ascii) :
  let sanitize k := opaque_key_util.get_filename_safe_course_id k replacement_char in
  sanitize (sanitize key) = sanitize key.
Proof. apply replace_unsafe_idempotent. Qed.

Section Router.

Variable Target : Type.
Variable get_target_from_url : string -> Target.
Variable url_path_join : string -> string -> string.
Variable get_filename_safe_course_id : string -> ascii -> string.

Lemma str_format_template (course_id suffix : string) :
  str_format "{course_id}-courseware_studentmodule-{suffix}analytics.sql"
    [("course_id", course_id); ("suffix", suffix)]
  = Return (course_id +:+ "-courseware_studentmodule-" +:+ suffix
            +:+ "analytics.sql").
Proof. reflexivity. Qed.

Lemma output_path_for_key_returns (self : StudentModulePerCourseTask)
  (key : string) :
  output_path_for_key url_path_join get_filename_safe_course_id self key
  = Return (url_path_join (output_root self)
              (partition_name get_filename_safe_course_id self key)).
Proof. destruct self as [d root [[|c s]|]]; reflexivity. Qed.

(** C4, amended: for every key, [output_path_for_key] returns
    [output_root] joined with the name
    [{sanitize(key)}-courseware_studentmodule-{segment}analytics.sql],
    where the segment is [output_suffix] followed by a hyphen when
    [output_suffix] is a non-empty string, and empty when it is [None] or
    the empty string; the result depends on the key, [output_root] and
    [output_suffix] only. *)
Theorem output_path_for_key_name (self : StudentModulePerCourseTask)
  (key : string) :
  output_path_for_key url_path_join get_filename_safe_course_id self key
  = Return (url_path_join (output_root self)
              (get_filename_safe_course_id key "-"%char
               +:+ "-courseware_studentmodule-"
               +:+ suffix_segment (output_suffix self) +:+ "analytics.sql")) ∧
  forall dump_root' : string,
    output_path_for_key url_path_join get_filename_safe_course_id
      (mkTask dump_root' (output_root self) (output_suffix self)) key
    = output_path_for_key url_path_join get_filename_safe_course_id self key.
Proof.
  destruct self as [d root [[|c s]|]]; split; intros; reflexivity.
Qed.

(** C5: the task's success target is the one made from [output_root]
    joined with the literal name [job_success], and that location is
    where [mark_success] puts the marker. *)
Theorem output_is_job_success_marker (self : StudentModulePerCourseTask)
  (fs : gmap string string) :
  output Target get_target_from_url url_path_join self
  = get_target_from_url (url_path_join (output_root self) "job_success") ∧
  mark_success url_path_join self fs
    !! url_path_join (output_root self) "job_success" = Some EmptyString ∧
  url.url_path_join (output_root self) MARKER_FILENAME
  = output_root self +:+ "/job_success".
Proof.
  split; [reflexivity|]. split; [|reflexivity].
  unfold mark_success, marker_location. apply lookup_insert_eq.
Qed.

End Router.

(** C4, as stated, fails when [output_suffix] is the empty string: the
    code adds no hyphen, the name has a single hyphen before
    [analytics.sql]. *)
Lemma output_path_for_key_empty_suffix :
  output_path_for_key url.url_path_join
    opaque_key_util.get_filename_safe_course_id
    (mkTask "dump" "out" (Some EmptyString)) "courseA"
  = Return "out/courseA-courseware_studentmodule-analytics.sql" ∧
  output_path_for_key url.url_path_join
    opaque_key_util.get_filename_safe_course_id
    (mkTask "dump" "out" (Some EmptyString)) "courseA"
  ≠ Return (url.url_path_join "out"
              (opaque_key_util.get_filename_safe_course_id "courseA" "-"%char
               +:+ "-courseware_studentmodule-"
               +:+ suffix_segment_when_set (Some EmptyString)
               +:+ "analytics.sql")).
Proof.
  split; [reflexivity|]. vm_compute. intros H. discriminate H.
Qed.

(** ** The mapper *)

Lemma StudentModuleRecord_new_astuple (values : list string)
  (record : StudentModuleRecord) :
  StudentModuleRecord_new values = Return record -> astuple record = values.
Proof.
  unfold StudentModuleRecord_new.
  do 12 (destruct values as [|? values]; try discriminate).
  intros [= <-]. reflexivity.
Qed.

Lemma StudentModuleRecord_new_arity (values : list string) :
  length values = 11%nat ->
  exists record, StudentModuleRecord_new values = Return record
                 /\ course_id record = nth 10 values EmptyString.
Proof.
  intros Hlen.
  do 12 (destruct values as [|? values]; try discriminate Hlen).
  eexists. split; reflexivity.
Qed.

Lemma StudentModuleRecord_new_wrong_arity (values : list string) :
  length values ≠ 11%nat ->
  exists e, StudentModuleRecord_new values = Raise e.
Proof.
  intros Hlen. unfold StudentModuleRecord_new.
  do 12 (destruct values as [|? values]; eauto).
  now destruct Hlen.
Qed.

Lemma StudentModuleRecord_new_arity_error (values : list string) :
  length values ≠ 11%nat ->
  StudentModuleRecord_new values
  = Raise (TypeError "__new__() takes exactly 12 arguments").
Proof.
  intros Hlen. unfold StudentModuleRecord_new.
  do 12 (destruct values as [|? values]; try reflexivity).
  now destruct Hlen.
Qed.

Section Mapper.

Variable parse_line : Z -> string -> dialect -> result (list string).
Variable to_csv_line : list string -> dialect -> string.

Lemma mapper_well_formed (p : process) (line : string) (values : list string) :
  parse_line (csv_field_limit p) line mysqldump = Return values ->
  length values = 11%nat ->
  mapper parse_line to_csv_line p line
  = Generated [(nth 10 values EmptyString, to_csv_line values mysqlpipe)] None.
Proof.
  intros Hparse Hlen. unfold mapper. rewrite Hparse. cbn [bind].
  destruct (StudentModuleRecord_new_arity values Hlen) as (record & Hnew & Hkey).
  rewrite Hnew. cbn [bind yield_one].
  now rewrite (StudentModuleRecord_new_astuple _ _ Hnew), Hkey.
Qed.

(** C3, amended: for every input line that fails to parse into the
    eleven-field schema, the mapper emits no (key, value) pair for that
    line, and the failure leaves the mapper as an exception, the parser's
    own error or the [TypeError] of the record's arity: the mapper has no
    handling that would skip the line. *)
Theorem mapper_malformed_line_raises (p : process) (line : string) :
  malformed (parse_line (csv_field_limit p) line mysqldump) ->
  yielded (mapper parse_line to_csv_line p line) = [] /\
  raised (mapper parse_line to_csv_line p line)
  = Some (mapper_failure (parse_line (csv_field_limit p) line mysqldump)) /\
  (forall e, parse_line (csv_field_limit p) line mysqldump = Raise e ->
     raised (mapper parse_line to_csv_line p line) = Some e) /\
  (forall values,
     parse_line (csv_field_limit p) line mysqldump = Return values ->
     raised (mapper parse_line to_csv_line p line)
     = Some (TypeError "__new__() takes exactly 12 arguments")).
Proof.
  unfold malformed, mapper, mapper_failure.
  destruct (parse_line (csv_field_limit p) line mysqldump) as [values|e].
  - intros Hlen. cbn [bind].
    rewrite (StudentModuleRecord_new_arity_error values Hlen). cbn.
    split; [reflexivity|]. split; [reflexivity|].
    split; [intros e He; discriminate He | reflexivity].
  - intros _. cbn.
    split; [reflexivity|]. split; [reflexivity|].
    split; [now intros e' [= <-] | intros values Hv; discriminate Hv].
Qed.


End Mapper.

Lemma mapper_malformed_line_raises_witness :
  yielded (mapper csv_util.parse_line csv_util.to_csv_line
             (import_module csv.fresh_process) short_line) = [] /\
  raised (mapper csv_util.parse_line csv_util.to_csv_line
            (import_module csv.fresh_process) short_line)
  = Some (mapper_failure
            (csv_util.parse_line
               (csv_field_limit (import_module csv.fresh_process))
               short_line mysqldump)) /\
  (forall e,
     csv_util.parse_line (csv_field_limit (import_module csv.fresh_process))
       short_line mysqldump = Raise e ->
     raised (mapper csv_util.parse_line csv_util.to_csv_line
               (import_module csv.fresh_process) short_line) = Some e) /\
  (forall values,
     csv_util.parse_line (csv_field_limit (import_module csv.fresh_process))
       short_line mysqldump = Return values ->
     raised (mapper csv_util.parse_line csv_util.to_csv_line
               (import_module csv.fresh_process) short_line)
     = Some (TypeError "__new__() takes exactly 12 arguments")).
Proof.
  apply (mapper_malformed_line_raises csv_util.parse_line csv_util.to_csv_line
           (import_module csv.fresh_process) short_line).
  vm_compute. discriminate.
Defined.

(** C3, as stated, fails on a line of three fields: the line is
    malformed, and the mapper does not skip it, it raises [TypeError]. *)
Lemma mapper_short_line_not_skipped :
  malformed (csv_util.parse_line
               (csv_field_limit (import_module csv.fresh_process))
               short_line mysqldump) /\
  raised (mapper csv_util.parse_line csv_util.to_csv_line
            (import_module csv.fresh_process) short_line)
  = Some (TypeError "__new__() takes exactly 12 arguments") /\
  ~ skipped (mapper csv_util.parse_line csv_util.to_csv_line
               (import_module csv.fresh_process) short_line).
Proof.
  split; [vm_compute; discriminate|]. split; [reflexivity|].
  intros [_ Hraised]. vm_compute in Hraised. discriminate Hraised.
Qed.


(** ** Reading a serialized row back *)

Lemma split_on_no_delimiter (d : ascii) (s : string) :
  occurs d s = false -> csv_util.split_on d s = [s].
Proof.
  induction s as [|c s IH]; [reflexivity|].
  cbn [occurs csv_util.split_on]. intros H.
  apply orb_false_iff in H as [Hc Hs]. now rewrite Hc, (IH Hs).
Qed.

Lemma split_on_field (d : ascii) (field rest : string) :
  occurs d field = false ->
  csv_util.split_on d (field +:+ str d +:+ rest)
  = field :: csv_util.split_on d rest.
Proof.
  induction field as [|c field IH]; intros H.
  - rewrite string_app_nil_l. unfold str. rewrite string_app_cons.
    cbn [csv_util.split_on]. now rewrite Ascii.eqb_refl.
  - cbn [occurs] in H. apply orb_false_iff in H as [Hc Hs].
    rewrite string_app_cons. cbn [csv_util.split_on].
    now rewrite Hc, (IH Hs).
Qed.

Lemma split_on_concat (d : ascii) (values : list string) :
  values ≠ [] ->
  Forall (fun v => occurs d v = false) values ->
  csv_util.split_on d (String.concat (str d) values) = values.
Proof.
  intros Hne Hall. induction Hall as [|v values Hv Hall IH]; [done|].
  destruct values as [|v' values].
  - cbn [String.concat]. now apply split_on_no_delimiter.
  - change (String.concat (str d) (v :: v' :: values))
      with (v +:+ str d +:+ String.concat (str d) (v' :: values)).
    rewrite (split_on_field d v _ Hv). f_equal. now apply IH.
Qed.


Lemma drop_chars_app (a b : string) : drop_chars (String.length a) (a +:+ b) = b.
Proof.
  induction a as [|x a IH]; [now destruct b|].
  rewrite string_app_cons. cbn [String.length drop_chars]. exact IH.
Qed.





Lemma split_on_length (d : ascii) (s : string) :
  length (csv_util.split_on d s) = S (count_char d s).
Proof.
  induction s as [|c s IH]; [reflexivity|].
  cbn [csv_util.split_on count_char]. destruct (Ascii.eqb c d).
  - cbn [length]. now rewrite IH.
  - destruct (csv_util.split_on d s) as [|f fs]; [discriminate IH|].
    cbn [length] in *. lia.
Qed.

Lemma count_char_app (d : ascii) (a b : string) :
  count_char d (a +:+ b) = (count_char d a + count_char d b)%nat.
Proof.
  induction a as [|x a IH]; [reflexivity|].
  rewrite string_app_cons. cbn [count_char]. rewrite IH. lia.
Qed.

Lemma count_char_concat (d : ascii) (values : list string) :
  count_char d (String.concat (str d) values)
  = (sum_list (map (count_char d) values) + (length values - 1))%nat.
Proof.
  induction values as [|v values IH]; [reflexivity|].
  destruct values as [|v' values].
  - cbn [String.concat map length].
    change (sum_list [count_char d v]) with (count_char d v + 0)%nat. lia.
  - change (String.concat (str d) (v :: v' :: values))
      with (v +:+ str d +:+ String.concat (str d) (v' :: values)).
    rewrite !count_char_app, IH.
    change (sum_list (map (count_char d) (v :: v' :: values)))
      with (count_char d v + sum_list (map (count_char d) (v' :: values)))%nat.
    cbn [length count_char str]. rewrite Ascii.eqb_refl. lia.
Qed.

Lemma count_char_zero (d : ascii) (s : string) :
  count_char d s = 0%nat <-> occurs d s = false.
Proof.
  induction s as [|c s IH]; [done|].
  cbn [count_char occurs]. destruct (Ascii.eqb c d); cbn; [split; [lia|done]|].
  exact IH.
Qed.

Lemma split_on_concat_iff (d : ascii) (values : list string) :
  values ≠ [] ->
  csv_util.split_on d (String.concat (str d) values) = values <->
  Forall (fun v => occurs d v = false) values.
Proof.
  intros Hne. split; [|now apply split_on_concat].
  intros H. apply (f_equal length) in H.
  rewrite split_on_length, count_char_concat in H.
  assert (Hsum : sum_list (map (count_char d) values) = 0%nat).
  { destruct values; [done|]. cbn [length] in H. lia. }
  clear -Hsum. induction values as [|v values IH]; [constructor|].
  change (sum_list (map (count_char d) (v :: values)))
    with (count_char d v + sum_list (map (count_char d) values))%nat in Hsum.
  constructor; [apply count_char_zero; lia | apply IH; lia].
Qed.



(** A field that holds a tab is written as it is: the row of such a line
    still holds the value byte for byte, and a reader that cuts the row
    at every tab finds twelve fields. *)
Example tabbed_field_written_unescaped :
  exists values row,
    csv_util.parse_line (csv_field_limit (import_module csv.fresh_process))
      tabbed_line mysqldump = Return values /\
    length values = 11%nat /\
    nth 4 values EmptyString = "{a" +:+ str TAB +:+ "b}" /\
    mapper csv_util.parse_line csv_util.to_csv_line
      (import_module csv.fresh_process) tabbed_line
    = Generated [("courseA", row)] None /\
    fields_at (map String.length values) row = values /\
    length (csv_util.split_on TAB row) = 12%nat.
Proof.
  eexists. eexists.
  split; [vm_compute; reflexivity|]. split; [reflexivity|].
  split; [reflexivity|]. split; [vm_compute; reflexivity|].
  split; reflexivity.
Qed.

(** ** The job *)

Lemma write_rows_written (rows : list string) (f f' : file_object) :
  for_each (fun row f0 => f1 <- write row f0 ;; write (str LF) f1) rows f
  = Return f' ->
  written f' = written f +:+ lines_text rows.
Proof.
  revert f. induction rows as [|row rows IH]; intros f H.
  - injection H as <-. now rewrite string_app_nil_r.
  - cbn [for_each] in H.
    destruct (write row f) as [f1|] eqn:H1; [|discriminate H].
    cbn [bind] in H.
    destruct (write (str LF) f1) as [f2|] eqn:H2; [|discriminate H].
    cbn [bind] in H. rewrite (IH _ H).
    assert (Hw : forall s g g', write s g = Return g' ->
                                written g' = written g +:+ s).
    { intros s g g'. unfold write.
      destruct (faults g) as [[|n]|]; intros [= <-]; reflexivity. }
    rewrite (Hw _ _ _ H2), (Hw _ _ _ H1). cbn [lines_text].
    now rewrite !string_app_assoc.
Qed.

Lemma multi_output_reducer_written (key : string) (rows : list string)
  (budget : option nat) (f : file_object) :
  multi_output_reducer key rows (OutputFile EmptyString budget) = Return f ->
  written f = lines_text (header_line :: rows).
Proof.
  unfold multi_output_reducer. rewrite header_is_joined_fields.
  destruct (write header_line (OutputFile EmptyString budget)) as [f1|] eqn:H1;
    [|discriminate].
  cbn [bind].
  destruct (write (str LF) f1) as [f2|] eqn:H2; [|discriminate].
  cbn [bind]. intros H. rewrite (write_rows_written _ _ _ H).
  unfold write in H1, H2. cbn [faults written] in H1.
  destruct budget as [[|n]|]; try discriminate H1;
    injection H1 as <-; cbn [faults written] in H2;
    try (destruct n; [discriminate H2|]); injection H2 as <-;
    cbn [written lines_text]; now rewrite !string_app_assoc.
Qed.

Section JobProperties.

Variable url_path_join : string -> string -> string.
Variable get_filename_safe_course_id : string -> ascii -> string.
Variable self : StudentModulePerCourseTask.
Variable device : string -> option nat.

Local Abbreviation path_of := (output_path_for_key url_path_join get_filename_safe_course_id self).
Local Abbreviation location key :=
  (url_path_join (output_root self)
     (partition_name get_filename_safe_course_id self key)).
Local Abbreviation succeeds := (partition_write_succeeds url_path_join get_filename_safe_course_id self device).
Local Abbreviation reduce := (reducer url_path_join get_filename_safe_course_id self device).
Local Abbreviation write_all := (write_partitions url_path_join get_filename_safe_course_id self device).

Lemma path_of_location (key : string) : path_of key = Return (location key).
Proof. apply output_path_for_key_returns. Qed.

Lemma check_collision_returns (st : run_state) (p key : string) :
  check_collision st p key = Return tt <->
  (forall first_key, finalized st !! p = Some first_key -> first_key = key).
Proof.
  unfold check_collision. destruct (finalized st !! p) as [k'|].
  - destruct (String.eqb_spec k' key) as [->|Hne].
    + split; [|done]. now intros _ k [= <-].
    + split; [done|]. intros H. destruct Hne. now apply H.
  - split; done.
Qed.

Lemma check_collision_raises (st : run_state) (p key : string) (e : exn) :
  check_collision st p key = Raise e ->
  exists first_key, finalized st !! p = Some first_key /\ first_key ≠ key /\
                    e = SanitizationCollision p first_key key.
Proof.
  unfold check_collision. destruct (finalized st !! p) as [k'|]; [|discriminate].
  destruct (String.eqb_spec k' key) as [->|Hne]; [discriminate|].
  intros [= <-]. eauto.
Qed.

Lemma reducer_returns (key : string) (rows : list string) (st st' : run_state) :
  reduce (key, rows) st = Return st' <->
  (forall first_key, finalized st !! location key = Some first_key -> first_key = key) /\
  exists f,
    multi_output_reducer key rows (OutputFile EmptyString (device (location key)))
    = Return f /\
    st' = RunState (<[location key := written f]> (storage st))
                   (<[location key := key]> (finalized st)).
Proof.
  unfold reducer. rewrite path_of_location. cbn [bind].
  rewrite <- check_collision_returns.
  destruct (check_collision st (location key) key) as [[]|e]; cbn [bind].
  - destruct (multi_output_reducer key rows _) as [f|e]; cbn [bind].
    + split.
      * intros [= <-]. split; [done|]. eauto.
      * intros (_ & f' & [= <-] & ->). done.
    + split; [done|]. intros (_ & f' & Hf & _). done.
  - split; [done|]. intros [H _]. done.
Qed.

Lemma succeeds_location (g : string * list string) :
  succeeds g <->
  exists f, multi_output_reducer (fst g) (snd g)
              (OutputFile EmptyString (device (location (fst g)))) = Return f.
Proof.
  unfold partition_write_succeeds. rewrite path_of_location. split.
  - intros (p & f & [= <-] & Hf). eauto.
  - intros [f Hf]. eauto.
Qed.

Lemma same_path_location (k1 k2 : string) :
  path_of k1 = path_of k2 <-> location k1 = location k2.
Proof.
  rewrite !path_of_location. split; [now intros [= ->] | now intros ->].
Qed.

Lemma write_all_cons (g : string * list string)
  (groups : list (string * list string)) (st : run_state) :
  write_all (g :: groups) st
  = match reduce g st with
    | Return st' => write_all groups st'
    | Raise e => (st, Some e)
    end.
Proof. reflexivity. Qed.

Lemma write_all_no_error (groups : list (string * list string)) (st : run_state) :
  snd (write_all groups st) = None <->
  Forall succeeds groups /\
  (forall g first_key, g ∈ groups ->
     finalized st !! location (fst g) = Some first_key -> first_key = fst g) /\
  collision_free url_path_join get_filename_safe_course_id self groups.
Proof.
  revert st. induction groups as [|[key rows] groups IH]; intros st.
  - split; [intros _|done].
    split; [constructor|]. split; [intros g k Hg|intros g1 g2 Hg];
      now apply elem_of_nil in Hg.
  - rewrite write_all_cons.
    destruct (reduce (key, rows) st) as [st'|e] eqn:Hred.
    + apply reducer_returns in Hred as (Hcheck & f & Hf & ->).
      rewrite IH. cbn [finalized]. split.
      * intros (Hall & Hcompat & Hfree). split; [|split].
        -- constructor; [|exact Hall]. apply succeeds_location. eauto.
        -- intros g k' Hg Hk'. apply elem_of_cons in Hg as [->|Hg]; [now apply Hcheck|].
           destruct (decide (location key = location (fst g))) as [Heq|Hne].
           ++ assert (Hkey : key = fst g).
              { apply (Hcompat g key Hg). rewrite <- Heq. apply lookup_insert_eq. }
              rewrite <- Hkey. apply Hcheck. now rewrite Heq.
           ++ apply (Hcompat g k' Hg). now rewrite lookup_insert_ne.
        -- intros g1 g2 Hg1 Hg2 Hsame. apply same_path_location in Hsame.
           apply elem_of_cons in Hg1 as [->|Hg1];
             apply elem_of_cons in Hg2 as [->|Hg2]; cbn [fst] in *.
           ++ reflexivity.
           ++ apply (Hcompat g2 key Hg2). rewrite <- Hsame. apply lookup_insert_eq.
           ++ symmetry. apply (Hcompat g1 key Hg1). rewrite Hsame.
              apply lookup_insert_eq.
           ++ apply Hfree; [done..|]. now apply same_path_location.
      * intros (Hall & Hcompat & Hfree). apply Forall_cons in Hall as [_ Hall].
        split; [exact Hall|]. split.
        -- intros g k' Hg Hk'.
           destruct (decide (location key = location (fst g))) as [Heq|Hne].
           ++ rewrite <- Heq, lookup_insert_eq in Hk'. injection Hk' as <-.
              apply (Hfree (key, rows) g); [left|now right|].
              now apply same_path_location.
           ++ rewrite lookup_insert_ne in Hk' by done.
              apply (Hcompat g k'); [now right|done].
        -- intros g1 g2 Hg1 Hg2. apply Hfree; now right.
    + split; [done|]. intros (Hall & Hcompat & Hfree). exfalso.
      apply Forall_cons in Hall as [Hs _].
      apply succeeds_location in Hs as [f Hf]. cbn [fst snd] in Hf.
      assert (Hret : reduce (key, rows) st
                     = Return (RunState (<[location key := written f]> (storage st))
                                        (<[location key := key]> (finalized st)))).
      { apply reducer_returns. split; [|eauto].
        intros k' Hk'. apply (Hcompat (key, rows) k'); [left|done]. }
      rewrite Hret in Hred. discriminate Hred.
Qed.

Lemma write_all_error_kind (groups : list (string * list string))
  (st : run_state) (e : exn) :
  snd (write_all groups st) = Some e ->
  Forall succeeds groups ->
  exists p first_key second_key,
    e = SanitizationCollision p first_key second_key /\ first_key ≠ second_key.
Proof.
  revert st. induction groups as [|[key rows] groups IH]; intros st; [done|].
  rewrite write_all_cons. intros He Hall.
  apply Forall_cons in Hall as [Hs Hall].
  destruct (reduce (key, rows) st) as [st'|e'] eqn:Hred; [now apply (IH st')|].
  cbn [snd] in He. injection He as ->.
  apply succeeds_location in Hs as [f Hf]. cbn [fst snd] in Hf.
  unfold reducer in Hred. rewrite path_of_location in Hred. cbn [bind] in Hred.
  destruct (check_collision st (location key) key) as [[]|e0] eqn:Hc;
    cbn [bind] in Hred.
  - rewrite Hf in Hred. discriminate Hred.
  - injection Hred as ->.
    apply check_collision_raises in Hc as (k' & _ & Hne & ->). eauto.
Qed.

Lemma write_all_storage_elsewhere (groups : list (string * list string))
  (st : run_state) (p : string) :
  (forall key, location key ≠ p) ->
  storage (fst (write_all groups st)) !! p = storage st !! p.
Proof.
  intros Hp. revert st.
  induction groups as [|[key rows] groups IH]; intros st; [done|].
  rewrite write_all_cons.
  destruct (reduce (key, rows) st) as [st'|e] eqn:Hred; [|done].
  apply reducer_returns in Hred as (_ & f & _ & ->).
  rewrite IH. cbn [storage]. now apply lookup_insert_ne.
Qed.

Lemma write_all_finalized (all_groups groups : list (string * list string))
  (st : run_state) :
  (forall g, g ∈ groups -> g ∈ all_groups) ->
  (forall p key, finalized st !! p = Some key ->
     exists rows, (key, rows) ∈ all_groups /\ path_of key = Return p /\
                  storage st !! p = Some (lines_text (header_line :: rows))) ->
  forall p key, finalized (fst (write_all groups st)) !! p = Some key ->
    exists rows, (key, rows) ∈ all_groups /\ path_of key = Return p /\
                 storage (fst (write_all groups st)) !! p
                 = Some (lines_text (header_line :: rows)).
Proof.
  revert st. induction groups as [|[key rows] groups IH]; intros st Hsub Hinv;
    [exact Hinv|].
  rewrite write_all_cons.
  destruct (reduce (key, rows) st) as [st'|e] eqn:Hred; [|exact Hinv].
  apply reducer_returns in Hred as (_ & f & Hf & ->).
  apply IH; [intros g Hg; apply Hsub; now right|].
  cbn [finalized storage]. intros p k Hk.
  destruct (decide (location key = p)) as [<-|Hne].
  - rewrite lookup_insert_eq in Hk. injection Hk as <-.
    exists rows. split; [apply Hsub; left|]. split; [apply path_of_location|].
    rewrite lookup_insert_eq. f_equal.
    exact (multi_output_reducer_written _ _ _ _ Hf).
  - rewrite lookup_insert_ne in Hk by done.
    destruct (Hinv p k Hk) as (rows' & Hin & Hpath & Hsto).
    exists rows'. split; [done|]. split; [done|].
    now rewrite lookup_insert_ne.
Qed.

Lemma run_job_error (groups : list (string * list string))
  (fs : gmap string string) :
  snd (run_job url_path_join get_filename_safe_course_id self device groups fs)
  = snd (write_all groups (start_run fs)).
Proof.
  unfold run_job. now destruct (write_all groups (start_run fs)) as [st [e|]].
Qed.

Lemma partition_name_not_marker (key : string) :
  partition_name get_filename_safe_course_id self key ≠ MARKER_FILENAME.
Proof.
  intros H. apply (f_equal String.length) in H. unfold partition_name in H.
  rewrite !string_length_app in H. cbn in H. lia.
Qed.



(** C9: when two distinct keys of a run sanitize to the same output
    location, the run ends with a fatal error (the collision itself,
    when no write fails on the device) instead of merging the two keys'
    rows; and in every run each partition file finalized holds the
    header and the rows of one key group only. *)
Theorem sanitization_collision_is_fatal
  (groups : list (string * list string)) (fs : gmap string string) :
  (forall g1 g2, g1 ∈ groups -> g2 ∈ groups -> fst g1 ≠ fst g2 ->
     path_of (fst g1) = path_of (fst g2) ->
     exists e,
       snd (run_job url_path_join get_filename_safe_course_id self device
              groups fs) = Some e /\
       (Forall succeeds groups ->
        exists p first_key second_key,
          e = SanitizationCollision p first_key second_key /\
          first_key ≠ second_key)) /\
  (forall p key,
     finalized (fst (write_all groups (start_run fs))) !! p = Some key ->
     exists rows,
       (key, rows) ∈ groups /\ path_of key = Return p /\
       storage (fst (write_all groups (start_run fs))) !! p
       = Some (lines_text (header_line :: rows))).
Proof.
  split.
  - intros g1 g2 Hg1 Hg2 Hne Hsame. rewrite run_job_error.
    destruct (snd (write_all groups (start_run fs))) as [e|] eqn:He.
    + exists e. split; [reflexivity|]. intros Hall.
      exact (write_all_error_kind groups (start_run fs) e He Hall).
    + exfalso. apply write_all_no_error in He as (_ & _ & Hfree).
      now apply Hne, Hfree.
  - apply write_all_finalized; [done|].
    intros p key Hk. cbn in Hk. now rewrite lookup_empty in Hk.
Qed.

End JobProperties.

Lemma url_path_join_inj (root a b : string) :
  url.url_path_join root a = url.url_path_join root b -> a = b.
Proof.
  unfold url.url_path_join. intros H.
  apply (inj (String.app root)) in H. now injection H.
Qed.


Lemma sanitization_collision_is_fatal_witness :
  exists e,
    snd (run_job url.url_path_join opaque_key_util.get_filename_safe_course_id
           (mkTask "dump" "out" None) (fun _ => None)
           [("a:b", ["r1"]); ("a-b", ["r2"])] ∅) = Some e /\
    (Forall (partition_write_succeeds url.url_path_join
               opaque_key_util.get_filename_safe_course_id
               (mkTask "dump" "out" None) (fun _ => None))
       [("a:b", ["r1"]); ("a-b", ["r2"])] ->
     exists p first_key second_key,
       e = SanitizationCollision p first_key second_key /\
       first_key ≠ second_key).
Proof.
  apply (proj1 (sanitization_collision_is_fatal url.url_path_join
                  opaque_key_util.get_filename_safe_course_id
                  (mkTask "dump" "out" None) (fun _ => None)
                  [("a:b", ["r1"]); ("a-b", ["r2"])] ∅)
           ("a:b", ["r1"]) ("a-b", ["r2"])).
  - left.
  - right. left.
  - discriminate.
  - reflexivity.
Defined.


(** A failure on the last partition leaves the first partition and no
    marker; without the failure the marker is there. *)
Example failure_on_last_partition :
  let self := mkTask "dump" "out" None in
  let groups := [("courseA", ["1" +:+ str TAB +:+ "problem"]);
                 ("courseB", ["2" +:+ str TAB +:+ "video"])] in
  let failing := fun p : string =>
    if String.eqb p "out/courseB-courseware_studentmodule-analytics.sql"
    then Some 3%nat else None in
  let bad := run_job url.url_path_join
               opaque_key_util.get_filename_safe_course_id self failing groups ∅ in
  let good := run_job url.url_path_join
                opaque_key_util.get_filename_safe_course_id self (fun _ => None)
                groups ∅ in
  snd bad = Some IOError /\
  fst bad !! "out/job_success" = None /\
  is_Some (fst bad !! "out/courseA-courseware_studentmodule-analytics.sql") /\
  fst bad !! "out/courseB-courseware_studentmodule-analytics.sql" = None /\
  snd good = None /\
  fst good !! "out/job_success" = Some EmptyString /\
  fst good !! "out/courseB-courseware_studentmodule-analytics.sql"
  = Some (header_line +:+ str LF +:+ "2" +:+ str TAB +:+ "video" +:+ str LF).
Proof.
  cbv zeta. repeat split; try (vm_compute; reflexivity).
  vm_compute. eauto.
Qed.

(** [output_path_for_key] has no collision check of its own: two
    distinct keys get the same location and both calls return. *)
Example colliding_keys_same_location :
  output_path_for_key url.url_path_join
    opaque_key_util.get_filename_safe_course_id (mkTask "dump" "out" None) "a:b"
  = Return "out/a-b-courseware_studentmodule-analytics.sql" /\
  output_path_for_key url.url_path_join
    opaque_key_util.get_filename_safe_course_id (mkTask "dump" "out" None) "a-b"
  = Return "out/a-b-courseware_studentmodule-analytics.sql".
Proof. split; reflexivity. Qed.

(** ** Further properties of the task's code *)

(** *** The record *)

(** X1: building a record from a list of values succeeds exactly when the
    list has eleven items; the record then holds the values in order
    (course id last, student id fourth), and a record rebuilt from its
    own items is the same record. *)
Theorem StudentModuleRecord_round_trip (values : list string)
  (record : StudentModuleRecord) :
  ((exists r, StudentModuleRecord_new values = Return r) <->
   length values = 11%nat) /\
  (StudentModuleRecord_new values = Return record ->
   astuple record = values /\
   course_id record = nth 10 values EmptyString /\
   student_id record = nth 3 values EmptyString /\
   state record = nth 4 values EmptyString) /\
  StudentModuleRecord_new (astuple record) = Return record /\
  length (astuple record) = length STUDENT_MODULE_FIELDS.
Proof.
  split; [|split; [|split]].
  - split.
    + intros [r Hr]. destruct (decide (length values = 11%nat)) as [|Hne]; [done|].
      destruct (StudentModuleRecord_new_wrong_arity values Hne) as [e He].
      rewrite He in Hr. discriminate Hr.
    + intros Hlen.
      destruct (StudentModuleRecord_new_arity values Hlen) as (r & Hr & _). eauto.
  - intros Hnew. pose proof (StudentModuleRecord_new_astuple _ _ Hnew) as <-.
    now destruct record.
  - now destruct record.
  - reflexivity.
Qed.

Lemma StudentModuleRecord_round_trip_witness :
  exists record,
    astuple record
    = ["1"; "mod"; "m1"; "s1"; "{}"; "0"; ""; ""; "0"; "0"; "courseA"] /\
    course_id record = "courseA" /\ student_id record = "s1" /\
    state record = "{}".
Proof.
  eexists.
  apply (proj1 (proj2 (StudentModuleRecord_round_trip
           ["1"; "mod"; "m1"; "s1"; "{}"; "0"; ""; ""; "0"; "0"; "courseA"] _))).
  reflexivity.
Defined.

(** *** The mappers *)

Section MapperExtras.

Variable parse_line : Z -> string -> dialect -> result (list string).
Variable to_csv_line : list string -> dialect -> string.

(** X2: on every line the mapper either yields exactly one pair and
    raises nothing, or yields nothing and raises; it yields exactly when
    the line parses into eleven fields, and the pair is then the eleventh
    field with the serialized record. *)
Theorem mapper_one_pair_or_exception (p : process) (line : string) :
  let out := mapper parse_line to_csv_line p line in
  (length (yielded out) <= 1)%nat /\
  (yielded out = [] <-> raised out ≠ None) /\
  (raised out = None <->
   exists values,
     parse_line (csv_field_limit p) line mysqldump = Return values /\
     length values = 11%nat) /\
  (forall values,
     parse_line (csv_field_limit p) line mysqldump = Return values ->
     length values = 11%nat ->
     yielded out = [(nth 10 values EmptyString, to_csv_line values mysqlpipe)]).
Proof.
  cbv zeta.
  destruct (parse_line (csv_field_limit p) line mysqldump) as [values|e] eqn:Hp.
  - destruct (decide (length values = 11%nat)) as [Hlen|Hne].
    + rewrite (mapper_well_formed parse_line to_csv_line p line values Hp Hlen).
      cbn [yielded raised length]. split; [lia|]. split; [split; done|].
      split; [split; [eauto|done]|]. now intros values' [= <-] _.
    + destruct (StudentModuleRecord_new_wrong_arity values Hne) as [e He].
      unfold mapper. rewrite Hp. cbn [bind]. rewrite He. cbn.
      split; [lia|]. split; [split; done|].
      split; [split; [done|]|].
      * intros (values' & [= <-] & Hlen). done.
      * intros values' [= <-] Hlen. done.
  - unfold mapper. rewrite Hp. cbn.
    split; [lia|]. split; [split; done|].
    split; [split; [done|]|].
    + intros (values' & Hv & _). discriminate Hv.
    + intros values' Hv. discriminate Hv.
Qed.

(** X3: the summary mapper and the per-course mapper fail on the same
    lines with the same exception and agree on the course id; what the
    summary mapper yields is the parsed values unchanged, keyed by the
    eleventh and the fourth of them. *)
Theorem summary_mapper_agrees_with_mapper (p : process) (line : string) :
  let summary := StudentModuleSummary.mapper parse_line p line in
  let per_course := mapper parse_line to_csv_line p line in
  raised summary = raised per_course /\
  map (fun kv => fst (fst kv)) (yielded summary) = map fst (yielded per_course) /\
  (forall key values, (key, values) ∈ yielded summary ->
     parse_line (csv_field_limit p) line mysqldump = Return values /\
     length values = 11%nat /\
     key = (nth 10 values EmptyString, nth 3 values EmptyString) /\
     yielded summary = [(key, values)]).
Proof.
  cbv zeta. unfold StudentModuleSummary.mapper, mapper.
  destruct (parse_line (csv_field_limit p) line mysqldump) as [values|e];
    cbn [bind].
  - destruct (decide (length values = 11%nat)) as [Hlen|Hne].
    + destruct (StudentModuleRecord_new_arity values Hlen) as (r & Hr & Hkey).
      rewrite Hr. cbn. split; [done|]. split; [done|].
      intros key values' Hin. apply list_elem_of_singleton in Hin.
      injection Hin as -> ->. split; [done|]. split; [done|].
      split; [|done]. f_equal; [exact Hkey|].
      pose proof (StudentModuleRecord_new_astuple _ _ Hr) as <-.
      now destruct r.
    + destruct (StudentModuleRecord_new_wrong_arity values Hne) as [e He].
      rewrite He. cbn. split; [done|]. split; [done|].
      intros key values' Hin. now apply elem_of_nil in Hin.
  - cbn. split; [done|]. split; [done|].
    intros key values' Hin. now apply elem_of_nil in Hin.
Qed.

End MapperExtras.

Lemma mapper_one_pair_or_exception_witness :
  yielded (mapper csv_util.parse_line csv_util.to_csv_line
             (import_module csv.fresh_process) "1,mod,m1,s1,{},0,,,0,0,courseA")
  = [("courseA",
      csv_util.to_csv_line
        ["1"; "mod"; "m1"; "s1"; "{}"; "0"; ""; ""; "0"; "0"; "courseA"]
        mysqlpipe)].
Proof.
  apply (proj2 (proj2 (proj2 (mapper_one_pair_or_exception
           csv_util.parse_line csv_util.to_csv_line
           (import_module csv.fresh_process)
           "1,mod,m1,s1,{},0,,,0,0,courseA")))
           ["1"; "mod"; "m1"; "s1"; "{}"; "0"; ""; ""; "0"; "0"; "courseA"]);
    reflexivity.
Defined.

Lemma summary_mapper_agrees_with_mapper_witness :
  csv_util.parse_line (csv_field_limit (import_module csv.fresh_process))
    "1,mod,m1,s1,{},0,,,0,0,courseA" mysqldump
  = Return ["1"; "mod"; "m1"; "s1"; "{}"; "0"; ""; ""; "0"; "0"; "courseA"] /\
  length ["1"; "mod"; "m1"; "s1"; "{}"; "0"; ""; ""; "0"; "0"; "courseA"]
  = 11%nat /\
  ("courseA", "s1")
  = (nth 10 ["1"; "mod"; "m1"; "s1"; "{}"; "0"; ""; ""; "0"; "0"; "courseA"]
       EmptyString,
     nth 3 ["1"; "mod"; "m1"; "s1"; "{}"; "0"; ""; ""; "0"; "0"; "courseA"]
       EmptyString) /\
  yielded (StudentModuleSummary.mapper csv_util.parse_line
             (import_module csv.fresh_process) "1,mod,m1,s1,{},0,,,0,0,courseA")
  = [(("courseA", "s1"),
      ["1"; "mod"; "m1"; "s1"; "{}"; "0"; ""; ""; "0"; "0"; "courseA"])].
Proof.
  apply (proj2 (proj2 (summary_mapper_agrees_with_mapper
           csv_util.parse_line csv_util.to_csv_line
           (import_module csv.fresh_process)
           "1,mod,m1,s1,{},0,,,0,0,courseA"))
           ("courseA", "s1")
           ["1"; "mod"; "m1"; "s1"; "{}"; "0"; ""; ""; "0"; "0"; "courseA"]).
  left.
Defined.

(** *** The summary reducer *)

Lemma summary_loop_ints (rows : list (list pyvalue)) (ns : list Z)
  (count total : Z) :
  Forall2 int_state rows ns ->
  for_each
    (fun row '(count, total_length) =>
       state <- record_state row ;;
       let count := (count + 1)%Z in
       total_length <- int_iadd total_length state ;;
       Return (count, total_length))
    rows (count, total)
  = Return ((count + Z.of_nat (length rows))%Z, (total + foldr Z.add 0%Z ns)%Z).
Proof.
  intros H. revert count total.
  induction H as [|row n rows ns Hrow _ IH]; intros count total.
  - cbn. do 2 f_equal; lia.
  - cbn [for_each]. unfold int_state in Hrow. rewrite Hrow. cbn [bind int_iadd].
    rewrite IH. cbn [length foldr]. do 2 f_equal; lia.
Qed.

Lemma summary_loop_returns (rows : list (list pyvalue)) (acc out : Z * Z) :
  for_each
    (fun row '(count, total_length) =>
       state <- record_state row ;;
       let count := (count + 1)%Z in
       total_length <- int_iadd total_length state ;;
       Return (count, total_length))
    rows acc = Return out ->
  exists ns, Forall2 int_state rows ns.
Proof.
  revert acc. induction rows as [|row rows IH]; intros [count total] H.
  - exists []. constructor.
  - cbn [for_each] in H.
    destruct (record_state row) as [[s|n]|e] eqn:Hrow; cbn in H;
      try discriminate H.
    destruct (IH _ H) as [ns Hns]. exists (n :: ns). now constructor.
Qed.

Lemma summary_loop_raises (rows : list (list pyvalue)) (acc : Z * Z) (e : exn) :
  for_each
    (fun row '(count, total_length) =>
       state <- record_state row ;;
       let count := (count + 1)%Z in
       total_length <- int_iadd total_length state ;;
       Return (count, total_length))
    rows acc = Raise e ->
  exists msg, e = TypeError msg.
Proof.
  revert acc. induction rows as [|row rows IH]; intros [count total] H;
    [discriminate H|].
  cbn [for_each] in H.
  assert (Hstate : forall r x, record_state r = Raise x -> exists msg, x = TypeError msg).
  { intros r x. unfold record_state.
    do 12 (destruct r as [|? r]; try (intros [= <-]; eauto; fail)). }
  destruct (record_state row) as [[s|n]|e'] eqn:Hrow; cbn in H.
  - injection H as <-. eauto.
  - now apply IH in H.
  - injection H as <-. exact (Hstate _ _ Hrow).
Qed.

(** X4: given rows that all have eleven items with an integer [state],
    the summary reducer yields one tuple for the key: the course id, the
    student id, the number of rows and the sum of the states; with no
    rows the count and the sum are zero. *)
Theorem summary_reducer_counts_and_sums (course student : string)
  (rows : list (list pyvalue)) (ns : list Z) :
  Forall2 int_state rows ns ->
  StudentModuleSummary.reducer (course, student) rows
  = Generated [(course, student, Z.of_nat (length rows), foldr Z.add 0%Z ns)]
      None.
Proof.
  intros H. pose proof (summary_loop_ints rows ns 0 0 H) as Hloop.
  unfold StudentModuleSummary.reducer. cbv beta iota zeta in *.
  rewrite Hloop. reflexivity.
Qed.

Lemma summary_reducer_counts_and_sums_witness :
  StudentModuleSummary.reducer ("courseA", "s1")
    [ [Str "1"; Str "mod"; Str "m1"; Str "s1"; Int 3; Str "0"; Str ""; Str "";
       Str "0"; Str "0"; Str "courseA"];
      [Str "2"; Str "mod"; Str "m2"; Str "s1"; Int 4; Str "0"; Str ""; Str "";
       Str "0"; Str "0"; Str "courseA"] ]
  = Generated [("courseA", "s1", 2%Z, 7%Z)] None.
Proof.
  refine (summary_reducer_counts_and_sums "courseA" "s1"
    [ [Str "1"; Str "mod"; Str "m1"; Str "s1"; Int 3; Str "0"; Str ""; Str "";
       Str "0"; Str "0"; Str "courseA"];
      [Str "2"; Str "mod"; Str "m2"; Str "s1"; Int 4; Str "0"; Str ""; Str "";
       Str "0"; Str "0"; Str "courseA"] ]
    [3%Z; 4%Z] _).
  repeat constructor.
Defined.

Lemma summary_reducer_cases (key : string * string)
  (rows : list (list pyvalue)) :
  let out := StudentModuleSummary.reducer key rows in
  (length (yielded out) <= 1)%nat /\
  (yielded out ≠ [] <-> exists ns, Forall2 int_state rows ns) /\
  (yielded out = [] <-> exists msg, raised out = Some (TypeError msg)).
Proof.
  cbv zeta. destruct key as [course student].
  pose proof (summary_loop_returns rows (0%Z, 0%Z)) as Hret.
  pose proof (summary_loop_raises rows (0%Z, 0%Z)) as Hraise.
  pose proof (fun ns => summary_loop_ints rows ns 0 0) as Hints.
  unfold StudentModuleSummary.reducer. cbv beta iota zeta in *.
  destruct (for_each _ rows (0%Z, 0%Z)) as [out|e] eqn:Hloop; cbn.
  - split; [lia|]. split.
    + split; [intros _; exact (Hret _ eq_refl)|done].
    + split; [done|]. intros [msg Hmsg]. discriminate Hmsg.
  - destruct (Hraise _ eq_refl) as [msg ->].
    split; [lia|]. split.
    + split; [done|]. intros [ns Hns].
      specialize (Hints ns Hns). discriminate Hints.
    + split; [eauto|done].
Qed.

(** X6: the rows the summary mapper emits hold strings only, and the
    reducer adds each row's [state] to an integer: whenever the rows of a
    key include a row of strings, the reducer yields nothing and ends
    with a [TypeError]. *)
Theorem summary_reducer_rejects_string_rows (key : string * string)
  (rows : list (list pyvalue)) (values : list string) :
  map Str values ∈ rows ->
  exists msg,
    StudentModuleSummary.reducer key rows = Generated [] (Some (TypeError msg)).
Proof.
  intros Hin.
  destruct (summary_reducer_cases key rows) as (_ & Hyield & Hnone).
  cbv zeta in *.
  assert (Hno : ~ exists ns, Forall2 int_state rows ns).
  { intros [ns Hns].
    assert (Hrow : exists n, int_state (map Str values) n).
    { clear -Hin Hns. induction Hns as [|row n rows ns Hrow _ IH].
      - now apply elem_of_nil in Hin.
      - apply elem_of_cons in Hin as [->|Hin]; [eauto|now apply IH]. }
    destruct Hrow as [n Hn]. unfold int_state, record_state in Hn.
    do 12 (destruct values as [|? values]; try discriminate Hn). }
  destruct (StudentModuleSummary.reducer key rows) as [ys r] eqn:Hout.
  cbn [yielded raised] in *.
  assert (ys = []) as ->.
  { destruct ys; [done|]. exfalso. apply Hno, Hyield. done. }
  destruct (proj1 Hnone eq_refl) as [msg ->]. eauto.
Qed.

Lemma summary_reducer_rejects_string_rows_witness :
  exists msg,
    StudentModuleSummary.reducer ("courseA", "s1")
      [ map Str ["1"; "mod"; "m1"; "s1"; "{}"; "0"; ""; ""; "0"; "0"; "courseA"] ]
    = Generated [] (Some (TypeError msg)).
Proof.
  apply (summary_reducer_rejects_string_rows ("courseA", "s1") _
           ["1"; "mod"; "m1"; "s1"; "{}"; "0"; ""; ""; "0"; "0"; "courseA"]).
  left.
Defined.

(** *** The partition writer *)

Lemma write_rows_budget (rows : list string) (before : string) (n : nat) :
  for_each (fun row f => f' <- write row f ;; write (str LF) f')
           rows (OutputFile before (Some n))
  = if (2 * length rows <=? n)%nat
    then Return (OutputFile (before +:+ lines_text rows)
                            (Some (n - 2 * length rows)%nat))
    else Raise IOError.
Proof.
  revert before n. induction rows as [|row rows IH]; intros before n.
  - cbn. rewrite string_app_nil_r. do 3 f_equal. lia.
  - cbn [for_each length].
    destruct n as [|[|n]];
      [destruct (Nat.leb_spec (2 * S (length rows)) 0); [lia|reflexivity]
      |destruct (Nat.leb_spec (2 * S (length rows)) 1); [lia|reflexivity]|].
    unfold write at 2. cbn [faults written bind].
    unfold write at 1. cbn [faults written bind].
    rewrite IH. cbn [length lines_text].
    replace (2 * S (length rows) <=? S (S n))%nat
      with (2 * length rows <=? n)%nat.
    2:{ destruct (Nat.leb_spec (2 * length rows) n);
        destruct (Nat.leb_spec (2 * S (length rows)) (S (S n))); lia || reflexivity. }
    destruct (2 * length rows <=? n)%nat; [|reflexivity].
    rewrite !string_app_assoc. do 3 f_equal. lia.
Qed.

(** X7: the writer issues two writes for the header and two for each
    row.  On an output that accepts [n] more writes it returns, with the
    header and every row written, exactly when [n] is at least
    [2 * (1 + N)]; otherwise it ends with [IOError]. *)
Theorem multi_output_reducer_write_count (key : string) (rows : list string)
  (before : string) (n : nat) :
  multi_output_reducer key rows (OutputFile before (Some n))
  = if (2 * S (length rows) <=? n)%nat
    then Return (OutputFile (before +:+ lines_text (header_line :: rows))
                            (Some (n - 2 * S (length rows))%nat))
    else Raise IOError.
Proof.
  unfold multi_output_reducer. rewrite header_is_joined_fields.
  destruct n as [|[|n]];
    [destruct (Nat.leb_spec (2 * S (length rows)) 0); [lia|reflexivity]
    |destruct (Nat.leb_spec (2 * S (length rows)) 1); [lia|reflexivity]|].
  unfold write at 2. cbn [faults written bind].
  unfold write at 1. cbn [faults written bind].
  rewrite write_rows_budget.
  replace (2 * S (length rows) <=? S (S n))%nat
    with (2 * length rows <=? n)%nat.
  2:{ destruct (Nat.leb_spec (2 * length rows) n);
      destruct (Nat.leb_spec (2 * S (length rows)) (S (S n))); lia || reflexivity. }
  destruct (2 * length rows <=? n)%nat; [|reflexivity].
  cbn [lines_text]. rewrite !string_app_assoc. do 3 f_equal. lia.
Qed.

Lemma content_lines_length_line (l rest : string) :
  length (content_lines (l +:+ str LF +:+ rest))
  = (count_char LF l + 1 + length (content_lines rest))%nat.
Proof.
  induction l as [|c l IH].
  - reflexivity.
  - rewrite string_app_cons. cbn [content_lines count_char].
    destruct (Ascii.eqb c LF).
    + cbn [length]. rewrite IH. lia.
    + destruct (content_lines (l +:+ str LF +:+ rest)) as [|l0 ls] eqn:Hls.
      * cbn [length] in IH. lia.
      * cbn [length] in *. lia.
Qed.

Lemma content_lines_length_text (ls : list string) :
  length (content_lines (lines_text ls))
  = (length ls + sum_list (map (count_char LF) ls))%nat.
Proof.
  induction ls as [|l ls IH]; [reflexivity|].
  cbn [lines_text map length]. rewrite content_lines_length_line, IH.
  change (sum_list (count_char LF l :: map (count_char LF) ls))
    with (count_char LF l + sum_list (map (count_char LF) ls))%nat.
  lia.
Qed.

(** X8: whatever the rows hold, the first line of the text the writer
    produces is the header; the rows are written as they are, so a line
    feed inside a row starts a new line: the text has one line for the
    header, one per row, and one more per line feed inside a row. *)
Theorem partition_lines_any_rows (key : string) (rows : list string) :
  exists f,
    multi_output_reducer key rows open_reliable = Return f /\
    content_lines (written f) = header_line :: content_lines (lines_text rows) /\
    length (content_lines (written f))
    = (1 + length rows + sum_list (map (count_char LF) rows))%nat.
Proof.
  eexists. split; [apply multi_output_reducer_reliable|].
  cbn [written]. rewrite string_app_nil_l. split.
  - cbn [lines_text]. apply content_lines_line, header_single_line.
  - rewrite content_lines_length_text. cbn [length map].
    change (sum_list (count_char LF header_line :: map (count_char LF) rows))
      with (0 + sum_list (map (count_char LF) rows))%nat.
    lia.
Qed.

(** *** The output router *)

Lemma string_app_inv_tail (a b c : string) : a +:+ c = b +:+ c -> a = b.
Proof.
  revert b. induction a as [|x a IH]; intros [|y b] H.
  - reflexivity.
  - apply (f_equal String.length) in H.
    rewrite string_app_nil_l, string_app_cons in H. cbn [String.length] in H.
    rewrite string_length_app in H. lia.
  - apply (f_equal String.length) in H.
    rewrite string_app_nil_l, string_app_cons in H. cbn [String.length] in H.
    rewrite string_length_app in H. lia.
  - rewrite !string_app_cons in H. injection H as -> H.
    f_equal. now apply IH.
Qed.

Lemma suffix_segment_eq (s1 s2 : option string) :
  suffix_segment s1 = suffix_segment s2 <->
  s1 = s2 \/ (truthy s1 = false /\ truthy s2 = false).
Proof.
  destruct s1 as [[|c1 s1]|], s2 as [[|c2 s2]|];
    cbn [suffix_segment truthy]; rewrite ?string_app_cons;
    (split; [intros H | intros [H|[H1 H2]]]);
    try discriminate; try (left; reflexivity);
    try (right; split; reflexivity); try reflexivity.
  - injection H as -> H. apply string_app_inv_tail in H as ->. now left.
  - now injection H as -> ->.
Qed.

Section RouterExtras.

Variable url_path_join : string -> string -> string.
Variable get_filename_safe_course_id : string -> ascii -> string.

(** X9: no key's partition is ever placed at the location of the
    [job_success] marker, whatever the key, the suffix and the
    sanitization; [url_path_join] is assumed to keep distinct names under
    a root distinct. *)
Theorem partition_path_is_never_the_marker
  (self : StudentModulePerCourseTask) (key : string) :
  (forall a b, url_path_join (output_root self) a
               = url_path_join (output_root self) b -> a = b) ->
  output_path_for_key url_path_join get_filename_safe_course_id self key
  ≠ Return (url_path_join (output_root self) MARKER_FILENAME).
Proof.
  intros Hinj. rewrite output_path_for_key_returns. intros [= H].
  apply Hinj in H. now apply partition_name_not_marker in H.
Qed.

(** X10: two keys of one task get the same output location exactly when
    their sanitized course ids are equal: the router adds no collision
    of its own and removes none. *)
Theorem same_location_iff_same_sanitized_id
  (self : StudentModulePerCourseTask) (key1 key2 : string) :
  (forall a b, url_path_join (output_root self) a
               = url_path_join (output_root self) b -> a = b) ->
  output_path_for_key url_path_join get_filename_safe_course_id self key1
  = output_path_for_key url_path_join get_filename_safe_course_id self key2 <->
  get_filename_safe_course_id key1 "-"%char
  = get_filename_safe_course_id key2 "-"%char.
Proof.
  intros Hinj. rewrite !output_path_for_key_returns. unfold partition_name.
  split.
  - intros [= H]. apply Hinj in H. now apply string_app_inv_tail in H.
  - now intros ->.
Qed.

(** X11: for two tasks that write under the same root, a key gets the
    same location exactly when the suffixes are equal or both are
    without effect ([None] or empty): distinct non-empty suffixes keep
    the outputs of two runs apart. *)
Theorem same_location_iff_same_suffix
  (dump1 dump2 root : string) (suffix1 suffix2 : option string) (key : string) :
  (forall a b, url_path_join root a = url_path_join root b -> a = b) ->
  output_path_for_key url_path_join get_filename_safe_course_id
    (mkTask dump1 root suffix1) key
  = output_path_for_key url_path_join get_filename_safe_course_id
      (mkTask dump2 root suffix2) key <->
  suffix1 = suffix2 \/ (truthy suffix1 = false /\ truthy suffix2 = false).
Proof.
  intros Hinj. rewrite !output_path_for_key_returns. unfold partition_name.
  cbn [output_root output_suffix]. rewrite <- suffix_segment_eq. split.
  - intros [= H]. apply Hinj in H.
    apply (inj (String.app _)) in H. apply (inj (String.app _)) in H.
    now apply string_app_inv_tail in H.
  - now intros ->.
Qed.

End RouterExtras.

Lemma partition_path_is_never_the_marker_witness :
  output_path_for_key url.url_path_join
    opaque_key_util.get_filename_safe_course_id (mkTask "dump" "out" None)
    "job_success"
  ≠ Return (url.url_path_join "out" MARKER_FILENAME).
Proof.
  apply (partition_path_is_never_the_marker url.url_path_join
           opaque_key_util.get_filename_safe_course_id
           (mkTask "dump" "out" None) "job_success").
  intros a b. apply url_path_join_inj.
Defined.

Lemma same_location_iff_same_sanitized_id_witness :
  output_path_for_key url.url_path_join
    opaque_key_util.get_filename_safe_course_id (mkTask "dump" "out" None) "a:b"
  = output_path_for_key url.url_path_join
      opaque_key_util.get_filename_safe_course_id (mkTask "dump" "out" None) "a/b".
Proof.
  apply (same_location_iff_same_sanitized_id url.url_path_join
           opaque_key_util.get_filename_safe_course_id
           (mkTask "dump" "out" None) "a:b" "a/b").
  - intros a b. apply url_path_join_inj.
  - reflexivity.
Defined.

Lemma same_location_iff_same_suffix_witness :
  output_path_for_key url.url_path_join
    opaque_key_util.get_filename_safe_course_id
    (mkTask "dump" "out" None) "courseA"
  = output_path_for_key url.url_path_join
      opaque_key_util.get_filename_safe_course_id
      (mkTask "other" "out" (Some EmptyString)) "courseA".
Proof.
  apply (same_location_iff_same_suffix url.url_path_join
           opaque_key_util.get_filename_safe_course_id
           "dump" "other" "out" None (Some EmptyString) "courseA").
  - intros a b. apply url_path_join_inj.
  - right. split; reflexivity.
Defined.

(** *** From input lines to a partition *)

Section Pipeline.

Variable parse_line : Z -> string -> dialect -> result (list string).
Variable to_csv_line : list string -> dialect -> string.

(** X12: when every line of a key parses into eleven fields, writing the
    rows the mapper emits for those lines gives the header followed by
    one line per input line, the serialized record of that line, in the
    order of the input. *)
Theorem mapped_lines_written_in_order (p : process) (key : string)
  (lines : list string) (parsed : list (list string)) :
  Forall2 (fun line values =>
             parse_line (csv_field_limit p) line mysqldump = Return values /\
             length values = 11%nat) lines parsed ->
  multi_output_reducer key
    (map snd (flat_map (fun line =>
                          yielded (mapper parse_line to_csv_line p line))
                       lines))
    open_reliable
  = Return (OutputFile
              (lines_text
                 (header_line
                  :: map (fun values => to_csv_line values mysqlpipe) parsed))
              None) /\
  length (flat_map (fun line => yielded (mapper parse_line to_csv_line p line))
            lines) = length lines.
Proof.
  intros Hall.
  assert (Hrows :
    flat_map (fun line => yielded (mapper parse_line to_csv_line p line)) lines
    = map (fun values => (nth 10 values EmptyString,
                          to_csv_line values mysqlpipe)) parsed).
  { induction Hall as [|line values lines parsed [Hp Hlen] _ IH]; [reflexivity|].
    cbn [flat_map map].
    rewrite (mapper_well_formed parse_line to_csv_line p line values Hp Hlen).
    cbn [yielded app]. now rewrite IH. }
  rewrite Hrows. split.
  - unfold open_reliable. rewrite multi_output_reducer_reliable.
    rewrite string_app_nil_l, map_map. reflexivity.
  - rewrite length_map. symmetry. exact (Forall2_length _ _ _ Hall).
Qed.

End Pipeline.

Lemma mapped_lines_written_in_order_witness :
  multi_output_reducer "courseA"
    (map snd (flat_map (fun line =>
                          yielded (mapper csv_util.parse_line
                                     csv_util.to_csv_line
                                     (import_module csv.fresh_process) line))
                       ["1,mod,m1,s1,{},0,,,0,0,courseA";
                        "2,mod,m2,s2,{},0,,,0,0,courseA"]))
    open_reliable
  = Return (OutputFile
              (lines_text
                 (header_line
                  :: map (fun values => csv_util.to_csv_line values mysqlpipe)
                       [["1"; "mod"; "m1"; "s1"; "{}"; "0"; ""; ""; "0"; "0"; "courseA"];
                        ["2"; "mod"; "m2"; "s2"; "{}"; "0"; ""; ""; "0"; "0"; "courseA"]]))
              None) /\
  length (flat_map (fun line =>
                      yielded (mapper csv_util.parse_line csv_util.to_csv_line
                                 (import_module csv.fresh_process) line))
            ["1,mod,m1,s1,{},0,,,0,0,courseA";
             "2,mod,m2,s2,{},0,,,0,0,courseA"]) = 2%nat.
Proof.
  apply (mapped_lines_written_in_order csv_util.parse_line csv_util.to_csv_line
           (import_module csv.fresh_process) "courseA"
           ["1,mod,m1,s1,{},0,,,0,0,courseA"; "2,mod,m2,s2,{},0,,,0,0,courseA"]
           [["1"; "mod"; "m1"; "s1"; "{}"; "0"; ""; ""; "0"; "0"; "courseA"];
            ["2"; "mod"; "m2"; "s2"; "{}"; "0"; ""; ""; "0"; "0"; "courseA"]]).
  repeat constructor.
Defined.
